(** * classic-pipeline.py: the fast-bot-metrics example bot

    A shallow embedding of [examples/fast-bot-metrics/classic-pipeline.py]:
    the [BotSettings] model, the construction done by [main], the three event
    handlers it registers and the [__main__] block.

    The pipeline framework and the JSON text parser behind
    [BotSettings.model_validate_json] are collaborators of the script; their
    answers are parameters of the development.  The script takes its argument
    parser as a parameter too; [Argparse] is the one of the standard
    library. *)

From Stdlib Require Import ZArith Ascii String QArith.
From stdpp Require Import base option list strings gmap.

Open Scope string_scope.
Open Scope list_scope.

(** ** Python values *)

Set Warnings "-register-all".

Module Py.

(** JSON-like values, as they reach the script from the transport (an
    application message) or from a parsed settings document.  A [dict] is
    kept as the list of its items; JSON objects only have string keys. *)
Inductive value : Type :=
| VNone
| VBool (b : bool)
| VInt (n : Z)
| VFloat (x : Q)
| VStr (s : string)
| VList (items : list value)
| VDict (items : list (string * value)).

(** Exceptions.  [CancelledError] is [asyncio.CancelledError], which an
    [await] raises when the task that runs it is cancelled; like
    [KeyboardInterrupt] it derives from [BaseException] and not from
    [Exception]. *)
Inductive exn : Type :=
| TypeError (what : string)
| KeyError (key : string)
| ValidationError (errors : list (string * string))
| OtherException (name : string)
| CancelledError
| KeyboardInterrupt.

(** [isinstance(e, Exception)]: what [except Exception] catches. *)
Definition is_Exception (e : exn) : bool :=
  match e with
  | CancelledError | KeyboardInterrupt => false
  | _ => true
  end.

Inductive result (A : Type) : Type :=
| Ok (a : A)
| Raise (e : exn).
Global Arguments Ok {A} a.
Global Arguments Raise {A} e.

(** [d.get(k)] on the items of a dict. *)
Fixpoint dict_get (k : string) (items : list (string * value)) : option value :=
  match items with
  | [] => None
  | (k', v) :: rest => if String.eqb k k' then Some v else dict_get k rest
  end.

Definition is_str (s : string) (v : value) : bool :=
  match v with
  | VStr t => String.eqb s t
  | _ => false
  end.

(** [sub in s] for two strings. *)
Definition str_contains (sub s : string) : bool :=
  match String.index 0 sub s with
  | Some _ => true
  | None => false
  end.

(** [k in obj] for a string [k]: key test on a dict, element test on a
    list, substring test on a string, [TypeError] on anything else. *)
Definition contains (k : string) (obj : value) : result bool :=
  match obj with
  | VDict items => Ok (match dict_get k items with Some _ => true | None => false end)
  | VList items => Ok (existsb (is_str k) items)
  | VStr s => Ok (str_contains k s)
  | VNone => Raise (TypeError "argument of type 'NoneType' is not iterable")
  | VBool _ => Raise (TypeError "argument of type 'bool' is not iterable")
  | VInt _ => Raise (TypeError "argument of type 'int' is not iterable")
  | VFloat _ => Raise (TypeError "argument of type 'float' is not iterable")
  end.

(** [obj[k]] for a string [k]. *)
Definition getitem (obj : value) (k : string) : result value :=
  match obj with
  | VDict items =>
      match dict_get k items with
      | Some v => Ok v
      | None => Raise (KeyError k)
      end
  | VList _ => Raise (TypeError "list indices must be integers or slices, not str")
  | VStr _ => Raise (TypeError "string indices must be integers")
  | VNone => Raise (TypeError "'NoneType' object is not subscriptable")
  | VBool _ => Raise (TypeError "'bool' object is not subscriptable")
  | VInt _ => Raise (TypeError "'int' object is not subscriptable")
  | VFloat _ => Raise (TypeError "'float' object is not subscriptable")
  end.

(** Truth value of an [Optional[str]], as tested by [if (url := ...)]. *)
Definition truthy (o : option string) : bool :=
  match o with
  | Some s => negb (String.eqb s "")
  | None => false
  end.

End Py.

(** ** The settings model *)

Module Settings.
Import Py.

(** [class BotSettings(BaseModel)]. *)
Record BotSettings : Type := {
  room_url : string;
  room_token : string;
  bot_name : string;
  prompt : option string;
  deepgram_api_key : option string;
  deepgram_voice : option string;
  deepgram_base_url : option string;
  openai_api_key : option string;
  openai_model : option string;
  openai_base_url : option string
}.

Definition default_bot_name : string := "Pipecat".
Definition default_prompt : string :=
  "You are a helpful LLM in a WebRTC call. Your goal is to demonstrate your capabilities in a succinct way. Respond to what the user said in a creative and helpful way in a few short sentences.".
Definition default_deepgram_voice : string := "aura-asteria-en".
Definition default_deepgram_base_url : string := "https://api.deepgram.com/v1/speak".
Definition default_openai_model : string := "gpt-4o".

(** One line of a [ValidationError]: the field and the kind of error. *)
Definition line : Type := string * string.

(** Outcome of validating one field or the whole model: pydantic reports
    the errors of all fields together. *)
Definition checked (A : Type) : Type := A + list line.

Definition ap {A B : Type} (f : checked (A -> B)) (x : checked A) : checked B :=
  match f, x with
  | inl g, inl a => inl (g a)
  | inl _, inr e => inr e
  | inr e, inl _ => inr e
  | inr e1, inr e2 => inr (e1 ++ e2)
  end.

(** A field annotated [str]; [dflt = None] when it is required. *)
Definition str_field (name : string) (dflt : option string)
    (doc : list (string * value)) : checked string :=
  match dict_get name doc with
  | None =>
      match dflt with
      | Some s => inl s
      | None => inr [(name, "missing")]
      end
  | Some (VStr s) => inl s
  | Some _ => inr [(name, "string_type")]
  end.

(** A field annotated [Optional[str]] with default [dflt]. *)
Definition optional_str_field (name : string) (dflt : option string)
    (doc : list (string * value)) : checked (option string) :=
  match dict_get name doc with
  | None => inl dflt
  | Some VNone => inl None
  | Some (VStr s) => inl (Some s)
  | Some _ => inr [(name, "string_type")]
  end.

(** Validation of a JSON object against the fields of [BotSettings], in
    the order of their declaration; keys that are not fields are ignored. *)
Definition validate (doc : list (string * value)) : checked BotSettings :=
  ap (ap (ap (ap (ap (ap (ap (ap (ap (ap (inl Build_BotSettings)
    (str_field "room_url" None doc))
    (str_field "room_token" None doc))
    (str_field "bot_name" (Some default_bot_name) doc))
    (optional_str_field "prompt" (Some default_prompt) doc))
    (optional_str_field "deepgram_api_key" None doc))
    (optional_str_field "deepgram_voice" (Some default_deepgram_voice) doc))
    (optional_str_field "deepgram_base_url" (Some default_deepgram_base_url) doc))
    (optional_str_field "openai_api_key" None doc))
    (optional_str_field "openai_model" (Some default_openai_model) doc))
    (optional_str_field "openai_base_url" None doc).

(** [BotSettings.model_validate_json(text)].  [json_loads] is the JSON
    reader of the validation library: [None] when [text] is not JSON. *)
Definition model_validate_json (json_loads : string -> option value)
    (text : string) : result BotSettings :=
  match json_loads text with
  | None => Raise (ValidationError [("", "json_invalid")])
  | Some (VDict doc) =>
      match validate doc with
      | inl settings => Ok settings
      | inr errors => Raise (ValidationError errors)
      end
  | Some _ => Raise (ValidationError [("", "model_type")])
  end.

(** *** The schema, stated on the document *)

Definition has_str (name : string) (doc : list (string * value)) : Prop :=
  exists s, dict_get name doc = Some (VStr s).

Definition str_if_present (name : string) (doc : list (string * value)) : Prop :=
  dict_get name doc = None \/ has_str name doc.

Definition str_or_null_if_present (name : string) (doc : list (string * value)) : Prop :=
  dict_get name doc = None \/ dict_get name doc = Some VNone \/ has_str name doc.

Definition optional_fields : list string :=
  ["prompt"; "deepgram_api_key"; "deepgram_voice"; "deepgram_base_url";
   "openai_api_key"; "openai_model"; "openai_base_url"].

Definition matches_schema (doc : list (string * value)) : Prop :=
  has_str "room_url" doc /\ has_str "room_token" doc /\
  str_if_present "bot_name" doc /\
  Forall (fun name => str_or_null_if_present name doc) optional_fields.

(** A settings text that is valid JSON and matches the schema. *)
Definition valid_settings (json_loads : string -> option value) (text : string) : Prop :=
  exists doc, json_loads text = Some (VDict doc) /\ matches_schema doc.

End Settings.

(** ** The bot: objects built by [main], effects and handlers *)

Module Bot.
Import Py.

(** Heap address of a Python list that is shared by reference. *)
Definition loc : Type := nat.

Record DailyParams : Type := {
  audio_out_enabled : bool;
  transcription_enabled : bool;
  vad_enabled : bool;
  vad_stop_secs : Q;
  vad_audio_passthrough : bool
}.

(** [DailyTransport(room_url, token, bot_name, params)]. *)
Record DailyTransport : Type := {
  t_room_url : string;
  t_token : string;
  t_bot_name : string;
  t_params : DailyParams
}.

(** A keyword argument: an [Optional[str]] or the HTTP client session. *)
Inductive arg : Type :=
| AStr (s : option string)
| ASession.

(** A service constructor call: the class and its keyword arguments, in the
    order in which they are written. *)
Record service : Type := {
  cls : string;
  kwargs : list (string * arg)
}.

(** Modelled from the spec: the user and assistant response aggregators are
    framework classes that are not part of this file; the spec has the
    transcript list "passed by reference" into them, so an aggregator is
    the class name together with the address of the list it was built on. *)
Record aggregator : Type := {
  agg_cls : string;
  agg_messages : loc
}.

Inductive processor : Type :=
| TransportInput (t : DailyTransport)
| AudioVolumeTimer
| TranscriptionTimingLogger
| Service (s : service)
| Aggregator (a : aggregator)
| TransportOutput (t : DailyTransport).

Record PipelineParams : Type := {
  allow_interruptions : bool;
  enable_metrics : bool;
  report_only_initial_ttfb : bool
}.

Record PipelineTask : Type := {
  pipeline : list processor;
  params : PipelineParams
}.

Inductive frame : Type :=
| EndFrame
| LLMMessagesFrame (messages : loc)
| DailyTransportMessageFrame (message : value) (participant_id : string).

(** Calls into the framework. *)
Inductive call : Type :=
| SendMessage (t : DailyTransport) (f : frame)
| PushFrame (a : aggregator) (f : frame)
| QueueFrame (t : PipelineTask) (f : frame)
| QueueFrames (t : PipelineTask) (fs : list frame)
| RunnerRun (t : PipelineTask).

Inductive log_record : Type :=
| ReceivedPing (message : value)
| HandlingError (e : exn) (message : value).

(** What the script does to the outside, in order. *)
Inductive effect : Type :=
| Called (c : call)
| Logged (r : log_record)
| Printed (e : exn)
| RunMain (settings : Settings.BotSettings).

Record state : Type := {
  heap : gmap loc (list value);
  trace : list effect
}.

(** The framework's answer to a call, given everything done before it:
    [None] when the call returns, [Some e] when it raises [e]. *)
Definition world : Type := list effect -> call -> option exn.

(** *** Computations: state and exceptions *)

Definition M (A : Type) : Type := state -> result A * state.

Definition ret {A : Type} (a : A) : M A := fun st => (Ok a, st).

Definition bind {A B : Type} (m : M A) (k : A -> M B) : M B :=
  fun st =>
    match m st with
    | (Ok a, st') => k a st'
    | (Raise e, st') => (Raise e, st')
    end.

Declare Scope py_scope.
Delimit Scope py_scope with py.
Notation "x <- m ;; k" := (bind m (fun x => k))
  (at level 100, m at next level, right associativity) : py_scope.
Notation "m ;; k" := (bind m (fun _ => k))
  (at level 100, right associativity) : py_scope.
Open Scope py_scope.

(** An expression that evaluates without touching the state. *)
Definition eval {A : Type} (r : result A) : M A := fun st => (r, st).

Definition emit (e : effect) : M unit :=
  fun st => (Ok tt, {| heap := heap st; trace := trace st ++ [e] |}).

(** A call into the framework: it is recorded, then returns or raises as
    the world says. *)
Definition invoke (w : world) (c : call) : M unit :=
  fun st =>
    (match w (trace st) c with
     | None => Ok tt
     | Some e => Raise e
     end,
     {| heap := heap st; trace := trace st ++ [Called c] |}).

(** [try: body / except C as e: handler(e)], where [catches] tells the
    instances of [C]. *)
Definition try_except {A : Type} (catches : exn -> bool)
    (body : M A) (handler : exn -> M A) : M A :=
  fun st =>
    match body st with
    | (Ok a, st') => (Ok a, st')
    | (Raise e, st') => if catches e then handler e st' else (Raise e, st')
    end.

(** A list display [[v1, ...]]: a new list object. *)
Definition new_list (items : list value) : M loc :=
  fun st =>
    let l := fresh (dom (heap st)) in
    (Ok l, {| heap := <[l := items]> (heap st); trace := trace st |}).

(** [lst.append(v)] on the list object at [l]. *)
Definition list_append (l : loc) (v : value) : M unit :=
  fun st =>
    (Ok tt, {| heap := alter (fun items => items ++ [v]) l (heap st);
               trace := trace st |}).

(** The state in which a computation leaves the program, whether it
    returned or raised. *)
Definition exec {A : Type} (m : M A) (st : state) : state := snd (m st).

Definition outcome {A : Type} (m : M A) (st : state) : result A := fst (m st).

(** *** [main]: construction *)

Definition getenv (environ : gmap string string) (name : string) : option string :=
  environ !! name.

(** [**({name: v} if (v := ...) else {})]. *)
Definition splat (name : string) (v : option string) : list (string * arg) :=
  if truthy v then [(name, AStr v)] else [].

Definition system_prompt : string :=
  "You are a helpful assistant in an audio conversation.

Your goal is to demonstrate your capabilities in a succinct way. Your output will be converted to audio so don't include special characters in your answers.

Respond to what the user said in a creative and helpful way. Be concise in your answers to basic questions. If you are asked to elaborate or tell a story, provide a longer response.
".

Definition message_dict (role content : string) : value :=
  VDict [("role", VStr role); ("content", VStr content)].

Definition introduce_yourself : value :=
  message_dict "system" "Please introduce yourself to the user.".

(** The local variables of [main] that its handlers and its last two
    statements use. *)
Record bot : Type := {
  transport : DailyTransport;
  stt : service;
  tts : service;
  llm : service;
  messages : loc;
  tma_in : aggregator;
  tma_out : aggregator;
  task : PipelineTask
}.

Definition make_transport (settings : Settings.BotSettings) : DailyTransport :=
  {| t_room_url := Settings.room_url settings;
     t_token := Settings.room_token settings;
     t_bot_name := Settings.bot_name settings;
     t_params := {| audio_out_enabled := true;
                    transcription_enabled := false;
                    vad_enabled := true;
                    vad_stop_secs := 200 # 1000;
                    vad_audio_passthrough := true |} |}.

Definition make_stt (environ : gmap string string) : service :=
  {| cls := "DeepgramSTTService";
     kwargs := [("api_key", AStr (getenv environ "DEEPGRAM_API_KEY"))]
               ++ splat "url" (getenv environ "DEEPGRAM_STT_URL") |}.

Definition make_tts (environ : gmap string string) : service :=
  {| cls := "ClearableDeepgramTTSService";
     kwargs := [("name", AStr (Some "Voice"));
                ("aiohttp_session", ASession);
                ("api_key", AStr (getenv environ "DEEPGRAM_API_KEY"));
                ("voice", AStr (Some "aura-asteria-en"))]
               ++ splat "base_url" (getenv environ "DEEPGRAM_TTS_BASE_URL") |}.

Definition make_llm (environ : gmap string string) : service :=
  {| cls := "OpenAILLMService";
     kwargs := [("name", AStr (Some "LLM"));
                ("api_key", AStr (getenv environ "OPENAI_API_KEY"));
                ("model", AStr (getenv environ "OPENAI_MODEL"));
                ("base_url", AStr (getenv environ "OPENAI_BASE_URL"))] |}.

(** The objects [main] builds, given the address of its [messages] list. *)
Definition assemble (environ : gmap string string)
    (settings : Settings.BotSettings) (messages : loc) : bot :=
  let transport := make_transport settings in
  let stt := make_stt environ in
  let tts := make_tts environ in
  let llm := make_llm environ in
  let tma_in := {| agg_cls := "LLMUserResponseAggregator"; agg_messages := messages |} in
  let tma_out := {| agg_cls := "LLMAssistantResponseAggregator"; agg_messages := messages |} in
  let pipeline :=
    [TransportInput transport;
     AudioVolumeTimer;
     Service stt;
     TranscriptionTimingLogger;
     Aggregator tma_in;
     Service llm;
     Service tts;
     TransportOutput transport;
     Aggregator tma_out] in
  let task :=
    {| pipeline := pipeline;
       params := {| allow_interruptions := true;
                    enable_metrics := true;
                    report_only_initial_ttfb := true |} |} in
  {| transport := transport; stt := stt; tts := tts; llm := llm;
     messages := messages; tma_in := tma_in; tma_out := tma_out;
     task := task |}.

(** [main] up to, and including, the construction of [task]. *)
Definition build (environ : gmap string string)
    (settings : Settings.BotSettings) : M bot :=
  messages <- new_list [message_dict "system" system_prompt] ;;
  ret (assemble environ settings messages).

(** *** The handlers registered by [main] *)

Definition on_participant_left (w : world) (b : bot)
    (transport : DailyTransport) (participant reason : value) : M unit :=
  invoke w (QueueFrame (task b) EndFrame).

Definition on_first_participant_joined (w : world) (b : bot)
    (transport : DailyTransport) (participant : value) : M unit :=
  list_append (messages b) introduce_yourself ;;
  invoke w (QueueFrames (task b) [LLMMessagesFrame (messages b)]).

Definition pong (key : string) (ts : value) (sender : string) : frame :=
  DailyTransportMessageFrame (VDict [(key, VDict [("ts", ts)])]) sender.

(** The suite of the [try] statement of [on_app_message]. *)
Definition app_message_body (w : world) (b : bot)
    (transport : DailyTransport) (message : value) (sender : string) : M unit :=
  found <- eval (contains "latency-ping" message) ;;
  if found : bool then
    emit (Logged (ReceivedPing message)) ;;
    ping <- eval (getitem message "latency-ping") ;;
    ts <- eval (getitem ping "ts") ;;
    invoke w (SendMessage transport (pong "latency-pong-msg-handler" ts sender)) ;;
    invoke w (PushFrame (tma_in b) (pong "latency-pong-pipeline-delivery" ts sender))
  else ret tt.

Definition on_app_message (w : world) (b : bot)
    (transport : DailyTransport) (message : value) (sender : string) : M unit :=
  try_except is_Exception
    (app_message_body w b transport message sender)
    (fun e => emit (Logged (HandlingError e message))).

(** The events for which [main] registers a handler, and the handler the
    transport runs for each (it passes itself as first argument). *)
Inductive event : Type :=
| ParticipantLeft (participant reason : value)
| FirstParticipantJoined (participant : value)
| AppMessage (message : value) (sender : string).

Definition handle (w : world) (b : bot) (ev : event) : M unit :=
  match ev with
  | ParticipantLeft participant reason =>
      on_participant_left w b (transport b) participant reason
  | FirstParticipantJoined participant =>
      on_first_participant_joined w b (transport b) participant
  | AppMessage message sender =>
      on_app_message w b (transport b) message sender
  end.

(** The state after the handlers of a sequence of events have run. *)
Definition deliver (w : world) (b : bot) (events : list event) (st : state) : state :=
  foldl (fun st ev => exec (handle w b ev) st) st events.

(** [main(settings)]. *)
Definition main (w : world) (environ : gmap string string)
    (settings : Settings.BotSettings) : M unit :=
  b <- build environ settings ;;
  invoke w (RunnerRun (task b)).

End Bot.

(** ** The [__main__] block *)

Module Cli.
Import Py Bot.

(** One [add_argument] call ([type=str]). *)
Record argument : Type := {
  flags : list string;
  required : bool;
  help : string
}.

Record ArgumentParser : Type := {
  description : string;
  arguments : list argument
}.

Definition parser : ArgumentParser :=
  {| description := "Pipecat Bot";
     arguments := [ {| flags := ["-s"; "--settings"];
                       required := true;
                       help := "Pipecat bot settings" |} ] |}.

(** What [parser.parse_known_args()] does with an argument vector: it
    returns the pair [(args, unknown)], where [args.settings] is the only
    attribute of [args], or leaves the interpreter with an exit status. *)
Inductive parsed : Type :=
| Namespace (settings : string) (unknown : list string)
| SystemExit (code : Z).

Definition argparse : Type := ArgumentParser -> list string -> parsed.

(** How the script ends. *)
Inductive ending : Type :=
| EndOfScript
| Exit (code : Z)
| Traceback (e : exn).

Definition is_ValidationError (e : exn) : bool :=
  match e with
  | ValidationError _ => true
  | _ => false
  end.

(** The [try] statement of the block, for the settings text [text]. *)
Definition run_settings (json_loads : string -> option value) (w : world)
    (environ : gmap string string) (text : string) : M unit :=
  try_except is_ValidationError
    (settings <- eval (Settings.model_validate_json json_loads text) ;;
     emit (RunMain settings) ;;
     main w environ settings)
    (fun e => emit (Printed e)).

Definition start : state := {| heap := ∅; trace := [] |}.

Definition script (parse_known_args : argparse)
    (json_loads : string -> option value) (w : world)
    (environ : gmap string string) (argv : list string) : ending * state :=
  match parse_known_args parser argv with
  | SystemExit code => (Exit code, start)
  | Namespace text unknown =>
      match run_settings json_loads w environ text start with
      | (Ok _, st) => (EndOfScript, st)
      | (Raise e, st) => (Traceback e, st)
      end
  end.

End Cli.

(** ** The argument parser *)

(** [ArgumentParser.parse_known_args] of the standard library's [argparse]
    (imported at line 9; CPython 3.11, [Lib/argparse.py]), for parsers built
    as the script builds [parser]: the [-h]/[--help] option that every parser
    gets, and options declared by [add_argument] with flags only, each
    storing one string.  Strings are taken as ASCII text. *)
Module Argparse.
Import Cli.

(** [s.startswith(p)]. *)
Fixpoint startswith (s p : string) : bool :=
  match p, s with
  | EmptyString, _ => true
  | String a p', String b s' => Ascii.eqb a b && startswith s' p'
  | String _ _, EmptyString => false
  end.

(** [s.split(sep, 1)], when [sep in s]. *)
Fixpoint split1 (sep : ascii) (s : string) : option (string * string) :=
  match s with
  | EmptyString => None
  | String c r =>
      if Ascii.eqb c sep then Some (EmptyString, r)
      else match split1 sep r with
           | Some (a, b) => Some (String c a, b)
           | None => None
           end
  end.

(** [s.lstrip('-')]. *)
Fixpoint lstrip_dashes (s : string) : string :=
  match s with
  | String c r => if Ascii.eqb c "-" then lstrip_dashes r else s
  | EmptyString => s
  end.

(** [s.replace('-', '_')]. *)
Fixpoint underscores (s : string) : string :=
  match s with
  | String c r => String (if Ascii.eqb c "-" then "_"%char else c) (underscores r)
  | EmptyString => s
  end.

(** [' ' in s]. *)
Fixpoint has_space (s : string) : bool :=
  match s with
  | String c r => Ascii.eqb c " " || has_space r
  | EmptyString => false
  end.

Inductive Action : Type :=
| HelpAction
| StoreAction (dest : string).

(** An option string that starts with two prefix characters (every option
    string starts with one). *)
Definition is_long (option_string : string) : bool :=
  match option_string with
  | String _ (String c _) => Ascii.eqb c "-"
  | _ => false
  end.

(** The attribute an argument is stored under ([_get_optional_kwargs]): the
    first long flag, or else the first flag, without its dashes. *)
Definition dest_of (a : argument) : string :=
  let dest_option_string :=
    match List.filter is_long (flags a) with
    | f :: _ => f
    | [] => hd "" (flags a)
    end in
  underscores (lstrip_dashes dest_option_string).

(** [parser._option_string_actions], in the order of registration. *)
Definition option_string_actions (p : ArgumentParser) : list (string * Action) :=
  [("-h", HelpAction); ("--help", HelpAction)] ++
  flat_map (fun a => map (fun f => (f, StoreAction (dest_of a))) (flags a))
           (arguments p).

Fixpoint lookup_action (tbl : list (string * Action)) (option_string : string)
    : option Action :=
  match tbl with
  | [] => None
  | (o, a) :: rest =>
      if String.eqb o option_string then Some a
      else lookup_action rest option_string
  end.

(** [(action, option_string, explicit_arg)]. *)
Definition option_tuple : Type := option Action * string * option string.

(** [_get_option_tuples], called on strings of two characters or more that
    start with a dash: the options that the string abbreviates. *)
Definition get_option_tuples (tbl : list (string * Action))
    (option_string : string) : list option_tuple :=
  if is_long option_string then
    let '(option_prefix, explicit_arg) :=
      match split1 "=" option_string with
      | Some (p, e) => (p, Some e)
      | None => (option_string, None)
      end in
    omap (fun '(o, a) =>
            if startswith o option_prefix
            then Some (Some a, o, explicit_arg) else None) tbl
  else
    let short_option_prefix := substring 0 2 option_string in
    let short_explicit_arg :=
      substring 2 (String.length option_string - 2) option_string in
    omap (fun '(o, a) =>
            if String.eqb o short_option_prefix
            then Some (Some a, o, Some short_explicit_arg)
            else if startswith o option_string
            then Some (Some a, o, None) else None) tbl.

Definition is_digit (c : ascii) : bool :=
  (48 <=? nat_of_ascii c)%nat && (nat_of_ascii c <=? 57)%nat.

Fixpoint all_digits (s : string) : bool :=
  match s with
  | String c r => is_digit c && all_digits r
  | EmptyString => true
  end.

(** [\d+]. *)
Definition digits (s : string) : bool :=
  negb (String.eqb s "") && all_digits s.

(** [$] also matches before a newline that ends the string. *)
Fixpoint chomp (s : string) : string :=
  match s with
  | String c EmptyString => if Ascii.eqb c "010" then EmptyString else s
  | String c r => String c (chomp r)
  | EmptyString => s
  end.

(** [_negative_number_matcher.match(s)], the pattern being
    [^-\d+$|^-\d*\.\d+$]. *)
Definition negative_number_matcher (s : string) : bool :=
  match s with
  | String c r =>
      Ascii.eqb c "-" &&
      (let r := chomp r in
       digits r ||
       match split1 "." r with
       | Some (a, b) => all_digits a && digits b
       | None => false
       end)
  | EmptyString => false
  end.

Definition has_negative_number_optionals (tbl : list (string * Action)) : bool :=
  existsb (fun '(o, _) => negative_number_matcher o) tbl.

(** What [_parse_optional] makes of one argument string: [None] (a
    positional), an option tuple, or an error. *)
Inductive interpretation : Type :=
| Positional
| Optional (t : option_tuple)
| Ambiguous.

Definition parse_optional (tbl : list (string * Action)) (arg_string : string)
    : interpretation :=
  match arg_string with
  | EmptyString => Positional
  | String c _ =>
      if negb (Ascii.eqb c "-") then Positional
      else
        match lookup_action tbl arg_string with
        | Some action => Optional (Some action, arg_string, None)
        | None =>
            if (String.length arg_string =? 1)%nat then Positional
            else
              let before_equals :=
                match split1 "=" arg_string with
                | Some (option_string, explicit_arg) =>
                    match lookup_action tbl option_string with
                    | Some action =>
                        Some (Some action, option_string, Some explicit_arg)
                    | None => None
                    end
                | None => None
                end in
              match before_equals with
              | Some t => Optional t
              | None =>
                  match get_option_tuples tbl arg_string with
                  | _ :: _ :: _ => Ambiguous
                  | [t] => Optional t
                  | [] =>
                      if negative_number_matcher arg_string
                         && negb (has_negative_number_optionals tbl)
                      then Positional
                      else if has_space arg_string then Positional
                      else Optional (None, arg_string, None)
                  end
              end
        end
  end.

(** One character of [arg_strings_pattern]; an ['O'] comes with the entry of
    [option_string_indices] at its index. *)
Inductive pattern : Type :=
| A
| O (t : option_tuple)
| Dash.

(** The first loop of [_parse_known_args]: every string with its pattern.
    All strings after the first [--] are positionals.  [None]: an ambiguous
    option was found. *)
Fixpoint arg_strings_pattern (tbl : list (string * Action))
    (arg_strings : list string) : option (list (string * pattern)) :=
  match arg_strings with
  | [] => Some []
  | arg_string :: rest =>
      if String.eqb arg_string "--"
      then Some ((arg_string, Dash) :: map (fun a => (a, A)) rest)
      else
        match parse_optional tbl arg_string with
        | Ambiguous => None
        | Positional =>
            option_map (cons (arg_string, A)) (arg_strings_pattern tbl rest)
        | Optional t =>
            option_map (cons (arg_string, O t)) (arg_strings_pattern tbl rest)
        end
  end.

(** The loop of [consume_optional] once a single-dash option without
    arguments (the help flag) is followed by more characters in the same
    string: each of them has to be a single-dash option; one that stores a
    value takes the characters left or, if none is left, the next argument
    string.  [true]: no error is raised. *)
Fixpoint combined (tbl : list (string * Action)) (explicit_arg : string)
    (argument_follows : bool) : bool :=
  match explicit_arg with
  | EmptyString => true
  | String c rest =>
      match lookup_action tbl (String "-" (String c EmptyString)) with
      | None => false
      | Some HelpAction => combined tbl rest argument_follows
      | Some (StoreAction _) =>
          match rest with
          | EmptyString => argument_follows
          | String _ _ => true
          end
      end
  end.

Inductive parse : Type :=
| Parsed (namespace : list (string * string)) (extras : list string)
| Exits (status : Z).

(** The main loop of [_parse_known_args] for a parser without positional
    arguments.  An option that stores a value and has no explicit argument
    needs a positional as the very next string (the pattern of an optional
    action allows no [--]); the help action leaves with status 0; what no
    action takes is appended to [extras]. *)
Fixpoint consume (tbl : list (string * Action)) (args : list (string * pattern))
    (namespace : list (string * string)) (extras : list string) : parse :=
  match args with
  | [] => Parsed namespace extras
  | (s, A) :: rest => consume tbl rest namespace (extras ++ [s])
  | (s, Dash) :: rest => consume tbl rest namespace (extras ++ [s])
  | (s, O (None, _, _)) :: rest => consume tbl rest namespace (extras ++ [s])
  | (_, O (Some (StoreAction dest), _, Some explicit_arg)) :: rest =>
      consume tbl rest ((dest, explicit_arg) :: namespace) extras
  | (_, O (Some (StoreAction dest), _, None)) :: rest =>
      match rest with
      | (arg_string, A) :: rest' =>
          consume tbl rest' ((dest, arg_string) :: namespace) extras
      | _ => Exits 2
      end
  | (_, O (Some HelpAction, _, None)) :: _ => Exits 0
  | (_, O (Some HelpAction, option_string, Some explicit_arg)) :: rest =>
      if negb (is_long option_string)
         && negb (String.eqb explicit_arg "")
         && combined tbl explicit_arg
              (match rest with (_, A) :: _ => true | _ => false end)
      then Exits 0
      else Exits 2
  end.

(** [getattr(namespace, dest)]: the value stored last. *)
Fixpoint getattr (namespace : list (string * string)) (dest : string)
    : option string :=
  match namespace with
  | [] => None
  | (d, v) :: rest => if String.eqb d dest then Some v else getattr rest dest
  end.

(** [_parse_known_args]; errors leave with status 2. *)
Definition parse_known_args_ (p : ArgumentParser) (arg_strings : list string)
    : parse :=
  let tbl := option_string_actions p in
  match arg_strings_pattern tbl arg_strings with
  | None => Exits 2
  | Some args =>
      match consume tbl args [] [] with
      | Exits status => Exits status
      | Parsed namespace extras =>
          if forallb (fun a => negb (required a)
                               || match getattr namespace (dest_of a) with
                                  | Some _ => true
                                  | None => false
                                  end)
                     (arguments p)
          then Parsed namespace extras
          else Exits 2
      end
  end.

(** [parser.parse_known_args()] as the script uses its result: the
    attribute [settings] of [args] (line 196), and [unknown].  The attribute
    is [None] only when no option set it, which a parser that requires the
    argument reports with status 2 before it returns. *)
Definition parse_known_args : argparse := fun p argv =>
  match parse_known_args_ p argv with
  | Exits status => SystemExit status
  | Parsed namespace extras =>
      match getattr namespace "settings" with
      | Some text => Namespace text extras
      | None => SystemExit 2
      end
  end.




End Argparse.

(** ** Observations on a trace *)

Module Obs.
Import Py Bot.

(** The framework calls of a trace, in order. *)
Definition calls (tr : list effect) : list call :=
  omap (fun e => match e with Called c => Some c | _ => None end) tr.

(** The frames handed to [send_message]. *)
Definition sent (tr : list effect) : list frame :=
  omap (fun e => match e with Called (SendMessage _ f) => Some f | _ => None end) tr.

(** The frames pushed into the pipeline with [push_frame]. *)
Definition pushed (tr : list effect) : list frame :=
  omap (fun e => match e with Called (PushFrame _ f) => Some f | _ => None end) tr.

(** The [EndFrame]s queued on the task with [queue_frame]. *)
Definition end_requests (tr : list effect) : list PipelineTask :=
  omap (fun e => match e with Called (QueueFrame t EndFrame) => Some t | _ => None end) tr.

(** The settings with which [main] was started. *)
Definition main_runs (tr : list effect) : list Settings.BotSettings :=
  omap (fun e => match e with RunMain s => Some s | _ => None end) tr.

Definition is_participant_left (ev : event) : bool :=
  match ev with
  | ParticipantLeft _ _ => true
  | _ => false
  end.

(** The number of participant-left events in a sequence of events. *)
Definition departures (events : list event) : nat :=
  length (List.filter is_participant_left events).

(** What a step from [st] to [st'] added to the trace. *)
Definition since (st st' : state) : list effect :=
  drop (length (trace st)) (trace st').

(** The keyword argument [name] of a constructor call. *)
Fixpoint kwarg (name : string) (kws : list (string * arg)) : option arg :=
  match kws with
  | [] => None
  | (k, a) :: rest => if String.eqb name k then Some a else kwarg name rest
  end.

(** The string passed to a service under keyword [name], if one is. *)
Definition override (name : string) (s : service) : option string :=
  match kwarg name (kwargs s) with
  | Some (AStr (Some v)) => Some v
  | _ => None
  end.

(** The environment variable [name] is set and is not the empty string. *)
Definition set_and_non_empty (environ : gmap string string) (name : string) : Prop :=
  exists v, environ !! name = Some v /\ v <> "".

Definition is_first_participant_joined (ev : event) : bool :=
  match ev with
  | FirstParticipantJoined _ => true
  | _ => false
  end.

Definition is_app_message (ev : event) : bool :=
  match ev with
  | AppMessage _ _ => true
  | _ => false
  end.

(** The number of application messages in a sequence of events. *)
Definition app_messages (events : list event) : nat :=
  length (List.filter is_app_message events).

(** The lists carried by the [LLMMessagesFrame]s of a batch of frames. *)
Definition transcripts_of (fs : list frame) : list loc :=
  omap (fun f => match f with LLMMessagesFrame l => Some l | _ => None end) fs.

(** The lists carried by the frames handed to [queue_frames], in order. *)
Definition queued_transcripts (tr : list effect) : list loc :=
  mbind (fun e => match e with
                  | Called (QueueFrames _ fs) => transcripts_of fs
                  | _ => []
                  end) tr.

(** The participant a transport message frame is addressed to. *)
Definition addressee (f : frame) : option string :=
  match f with
  | DailyTransportMessageFrame _ p => Some p
  | _ => None
  end.

(** [message["latency-ping"]["ts"]], when both subscripts succeed. *)
Definition ping_timestamp (message : value) : option value :=
  match getitem message "latency-ping" with
  | Ok ping =>
      match getitem ping "ts" with
      | Ok ts => Some ts
      | Raise _ => None
      end
  | Raise _ => None
  end.

(** The fields of [BotSettings], in the order of their declaration. *)
Definition field_names : list string :=
  ["room_url"; "room_token"; "bot_name"; "prompt"; "deepgram_api_key";
   "deepgram_voice"; "deepgram_base_url"; "openai_api_key"; "openai_model";
   "openai_base_url"].

(** The environment variables named in the [os.getenv] calls of [main]. *)
Definition read_variables : list string :=
  ["DEEPGRAM_API_KEY"; "DEEPGRAM_STT_URL"; "DEEPGRAM_TTS_BASE_URL";
   "OPENAI_API_KEY"; "OPENAI_MODEL"; "OPENAI_BASE_URL"].

(** The value of the [Optional[str]] field [name] of a settings record
    ([None] too when [name] is not such a field). *)
Definition optional_value (s : Settings.BotSettings) (name : string) : option string :=
  if String.eqb name "prompt" then Settings.prompt s
  else if String.eqb name "deepgram_api_key" then Settings.deepgram_api_key s
  else if String.eqb name "deepgram_voice" then Settings.deepgram_voice s
  else if String.eqb name "deepgram_base_url" then Settings.deepgram_base_url s
  else if String.eqb name "openai_api_key" then Settings.openai_api_key s
  else if String.eqb name "openai_model" then Settings.openai_model s
  else if String.eqb name "openai_base_url" then Settings.openai_base_url s
  else None.

(** A validation outcome is a failure that has the error line [l]. *)
Definition reports {A : Type} (c : Settings.checked A) (l : Settings.line) : Prop :=
  exists errors, c = inr errors /\ l ∈ errors.

(** What the [try] statement of [on_app_message] makes of an exception [e]
    raised in its suite, with heap [h] and after the trace [tr]: an instance
    of [Exception] is logged and the handler returns, anything else goes on. *)
Definition guarded (message : value) (e : exn) (h : gmap loc (list value))
    (tr : list effect) : result unit * state :=
  if is_Exception e
  then (Ok tt, {| heap := h; trace := tr ++ [Logged (HandlingError e message)] |})
  else (Raise e, {| heap := h; trace := tr |}).

(** What the script printed, in order. *)
Definition printed (tr : list effect) : list exn :=
  omap (fun e => match e with Printed x => Some x | _ => None end) tr.

(** The keywords of a constructor call, in order. *)
Definition keywords (s : service) : list string := (kwargs s).*1.

End Obs.

(** ** Concrete worlds and inputs *)

Module Sample.
Import Py Bot Cli.

(** A framework in which every call returns. *)
Definition quiet : world := fun _ _ => None.

(** A framework in which [send_message] raises. *)
Definition send_fails : world :=
  fun _ c =>
    match c with
    | SendMessage _ _ => Some (OtherException "send failed")
    | _ => None
    end.

Definition settings : Settings.BotSettings :=
  {| Settings.room_url := "https://example.daily.co/room";
     Settings.room_token := "token";
     Settings.bot_name := "Pipecat";
     Settings.prompt := Some Settings.default_prompt;
     Settings.deepgram_api_key := None;
     Settings.deepgram_voice := Some Settings.default_deepgram_voice;
     Settings.deepgram_base_url := Some Settings.default_deepgram_base_url;
     Settings.openai_api_key := None;
     Settings.openai_model := Some Settings.default_openai_model;
     Settings.openai_base_url := None |}.

(** The bot [main] builds from [settings] in an empty environment. *)
Definition the_bot : bot := assemble ∅ settings 0%nat.

(** The state in which [main] leaves the heap before it runs the task. *)
Definition ready : state := exec (build ∅ settings) start.

(** [{"latency-ping": {"ts": 1714000000000}}] *)
Definition ping : value :=
  VDict [("latency-ping", VDict [("ts", VInt 1714000000000)])].

(** An environment with every variable the script reads. *)
Definition full_environ : gmap string string :=
  <["DEEPGRAM_API_KEY" := "dg-key"]>
  (<["DEEPGRAM_STT_URL" := "wss://stt.example/v1/listen"]>
  (<["DEEPGRAM_TTS_BASE_URL" := "https://tts.example/v1/speak"]>
  (<["OPENAI_API_KEY" := "sk-key"]>
  (<["OPENAI_MODEL" := "gpt-4o"]>
  (<["OPENAI_BASE_URL" := "https://llm.example/v1"]> ∅))))).

(** An environment in which [OPENAI_BASE_URL] is set to the empty string. *)
Definition empty_base_url : gmap string string :=
  <["OPENAI_BASE_URL" := ""]> ∅.

(** Settings with the room of [settings] and everything else different. *)
Definition other_settings : Settings.BotSettings :=
  {| Settings.room_url := "https://example.daily.co/room";
     Settings.room_token := "token";
     Settings.bot_name := "Pipecat";
     Settings.prompt := Some "You are a pirate.";
     Settings.deepgram_api_key := Some "dg-other";
     Settings.deepgram_voice := Some "aura-luna-en";
     Settings.deepgram_base_url := None;
     Settings.openai_api_key := Some "sk-other";
     Settings.openai_model := Some "gpt-3.5-turbo";
     Settings.openai_base_url := Some "https://other.example/v1" |}.


(** A framework in which the run of the task ends with [e]. *)
Definition run_fails (e : exn) : world :=
  fun _ c =>
    match c with
    | RunnerRun _ => Some e
    | _ => None
    end.

(** A framework in which [queue_frames] raises. *)
Definition queue_fails : world :=
  fun _ c =>
    match c with
    | QueueFrames _ _ => Some (OtherException "task is not running")
    | _ => None
    end.

(** The document of [{"room_token": 5, "bot_name": null}]. *)
Definition bad_doc : list (string * value) :=
  [("room_token", VInt 5); ("bot_name", VNone)].

(** The document of [{"verbose": true, "room_token": "token", "prompt": null,
    "openai_model": "gpt-4o-mini", "room_url": "https://example.daily.co/room"}]. *)
Definition busy_doc : list (string * value) :=
  [("verbose", VBool true); ("room_token", VStr "token"); ("prompt", VNone);
   ("openai_model", VStr "gpt-4o-mini");
   ("room_url", VStr "https://example.daily.co/room")].

(** The same settings without the key that is not a field, in another order. *)
Definition busy_doc_sorted : list (string * value) :=
  [("room_url", VStr "https://example.daily.co/room"); ("room_token", VStr "token");
   ("openai_model", VStr "gpt-4o-mini"); ("prompt", VNone)].

(** The quotation mark of JSON. *)
Definition q : string := String (Ascii.ascii_of_nat 34) "".

(** The settings text [{"room_url": "https://example.daily.co/room",
    "room_token": "token"}] and its document. *)
Definition minimal_text : string :=
  String.concat ""
    ["{"; q; "room_url"; q; ": "; q; "https://example.daily.co/room"; q; ", ";
     q; "room_token"; q; ": "; q; "token"; q; "}"].

Definition minimal_doc : list (string * value) :=
  [("room_url", VStr "https://example.daily.co/room");
   ("room_token", VStr "token")].

(** The settings text [{"room_token": "token"}], without a room. *)
Definition no_room_text : string :=
  String.concat "" ["{"; q; "room_token"; q; ": "; q; "token"; q; "}"].

(** A JSON reader that knows the two texts above. *)
Definition json_loads (text : string) : option value :=
  if String.eqb text minimal_text then Some (VDict minimal_doc)
  else if String.eqb text no_room_text then Some (VDict [("room_token", VStr "token")])
  else None.

(** An argument parser for vectors that start with [-s TEXT]. *)
Definition parse_known_args : argparse :=
  fun _ argv =>
    match argv with
    | "-s" :: text :: unknown => Namespace text unknown
    | _ => SystemExit 2
    end.

End Sample.

(** * Properties *)

Import Py Bot Cli Obs.

(** ** Runs on concrete inputs *)

Example contains_key :
  contains "latency-ping" Sample.ping = Ok true.
Proof. reflexivity. Qed.

Example contains_substring :
  contains "latency-ping" (VStr "a latency-ping message") = Ok true.
Proof. reflexivity. Qed.

Example contains_on_number :
  contains "latency-ping" (VInt 7)
  = Raise (TypeError "argument of type 'int' is not iterable").
Proof. reflexivity. Qed.

(** A ping from ["alice"] in a world where every call returns. *)
Example run_ping :
  on_app_message Sample.quiet Sample.the_bot (transport Sample.the_bot)
    Sample.ping "alice" Sample.ready
  = (Ok tt,
     {| heap := heap Sample.ready;
        trace :=
          [Logged (ReceivedPing Sample.ping);
           Called (SendMessage (transport Sample.the_bot)
                     (DailyTransportMessageFrame
                        (VDict [("latency-pong-msg-handler",
                                 VDict [("ts", VInt 1714000000000)])]) "alice"));
           Called (PushFrame (tma_in Sample.the_bot)
                     (DailyTransportMessageFrame
                        (VDict [("latency-pong-pipeline-delivery",
                                 VDict [("ts", VInt 1714000000000)])]) "alice"))] |}).
Proof. reflexivity. Qed.

(** A ping without a timestamp: [KeyError('ts')] is logged. *)
Example run_ping_without_ts :
  on_app_message Sample.quiet Sample.the_bot (transport Sample.the_bot)
    (VDict [("latency-ping", VDict [])]) "alice" Sample.ready
  = (Ok tt,
     {| heap := heap Sample.ready;
        trace :=
          [Logged (ReceivedPing (VDict [("latency-ping", VDict [])]));
           Logged (HandlingError (KeyError "ts")
                     (VDict [("latency-ping", VDict [])]))] |}).
Proof. reflexivity. Qed.

(** A string message that mentions the key: the test succeeds, the
    subscript raises. *)
Example run_ping_in_text :
  trace (exec (on_app_message Sample.quiet Sample.the_bot (transport Sample.the_bot)
                 (VStr "latency-ping") "alice") Sample.ready)
  = [Logged (ReceivedPing (VStr "latency-ping"));
     Logged (HandlingError (TypeError "string indices must be integers")
               (VStr "latency-ping"))].
Proof. reflexivity. Qed.

(** The script on a minimal settings text: [main] is started with the
    defaults and runs the task. *)
Example run_script :
  script Sample.parse_known_args Sample.json_loads Sample.quiet Sample.full_environ
    ["-s"; Sample.minimal_text]
  = (EndOfScript,
     {| heap := {[ 0%nat := [message_dict "system" system_prompt] ]};
        trace := [RunMain Sample.settings;
                  Called (RunnerRun
                            (task (assemble Sample.full_environ Sample.settings 0%nat)))] |}).
Proof. reflexivity. Qed.

(** Without [-s] the parser used here leaves with status 2. *)
Example run_script_without_settings :
  script Sample.parse_known_args Sample.json_loads Sample.quiet Sample.full_environ []
  = (Exit 2, start).
Proof. reflexivity. Qed.

Example environment_overrides :
  kwargs (make_stt Sample.full_environ)
  = [("api_key", AStr (Some "dg-key")); ("url", AStr (Some "wss://stt.example/v1/listen"))]
  /\ kwargs (make_stt ∅) = [("api_key", AStr None)]
  /\ kwargs (make_llm ∅)
     = [("name", AStr (Some "LLM")); ("api_key", AStr None);
        ("model", AStr None); ("base_url", AStr None)].
Proof. split_and!; reflexivity. Qed.

(** ** Reading the trace *)

Lemma since_app (st : state) (h : gmap loc (list value)) (new : list effect) :
  since st {| heap := h; trace := trace st ++ new |} = new.
Proof. unfold since; simpl. by rewrite drop_app_length. Qed.


Lemma getitem_contains (k : string) (obj v : value) :
  getitem obj k = Ok v -> contains k obj = Ok true.
Proof.
  destruct obj; simpl; try discriminate.
  by destruct (dict_get k items).
Qed.

(** ** The application-message handler *)

(** What the subscripts and the membership test raise is an instance of
    [Exception]. *)
Lemma getitem_raises_Exception (obj : value) (k : string) (e : exn) :
  getitem obj k = Raise e -> is_Exception e = true.
Proof.
  destruct obj; simpl; try (by intros [= <-]).
  destruct (dict_get k items); [done|]. by intros [= <-].
Qed.

Lemma contains_raises_Exception (k : string) (obj : value) (e : exn) :
  contains k obj = Raise e -> is_Exception e = true.
Proof. destruct obj; simpl; try done; by intros [= <-]. Qed.

(** The handler on a message of the ping protocol: everything it does. *)
Lemma on_app_message_ping (w : world) (b : bot) (t : DailyTransport)
    (message ping ts : value) (sender : string) (st : state) :
  getitem message "latency-ping" = Ok ping ->
  getitem ping "ts" = Ok ts ->
  let immediate := SendMessage t (pong "latency-pong-msg-handler" ts sender) in
  let queued := PushFrame (tma_in b) (pong "latency-pong-pipeline-delivery" ts sender) in
  let logged := trace st ++ [Logged (ReceivedPing message)] in
  on_app_message w b t message sender st =
    match w logged immediate with
    | Some e => guarded message e (heap st) (logged ++ [Called immediate])
    | None =>
        match w (logged ++ [Called immediate]) queued with
        | Some e =>
            guarded message e (heap st)
              ((logged ++ [Called immediate]) ++ [Called queued])
        | None =>
            (Ok tt,
             {| heap := heap st;
                trace := (logged ++ [Called immediate]) ++ [Called queued] |})
        end
    end.
Proof.
  intros Hping Hts; simpl.
  unfold on_app_message, try_except, app_message_body, bind, eval, emit, invoke, guarded.
  rewrite (getitem_contains _ _ _ Hping), Hping, Hts; simpl.
  destruct (w _ _) as [e|]; simpl; [by destruct (is_Exception e)|].
  destruct (w _ _) as [e|]; simpl; [by destruct (is_Exception e)|done].
Qed.







(** ** The participant handlers *)

Lemma on_participant_left_step (w : world) (b : bot) (t : DailyTransport)
    (participant reason : value) (st : state) :
  exec (on_participant_left w b t participant reason) st
  = {| heap := heap st;
       trace := trace st ++ [Called (QueueFrame (task b) EndFrame)] |}.
Proof. reflexivity. Qed.

Lemma on_first_participant_joined_step (w : world) (b : bot) (t : DailyTransport)
    (participant : value) (st : state) :
  exec (on_first_participant_joined w b t participant) st
  = {| heap := alter (fun items => items ++ [introduce_yourself]) (messages b) (heap st);
       trace := trace st
                ++ [Called (QueueFrames (task b) [LLMMessagesFrame (messages b)])] |}.
Proof. reflexivity. Qed.

(** What [on_app_message] adds to the trace never is a [queue_frame] call,
    and it leaves the heap alone. *)
Lemma on_app_message_step (w : world) (b : bot) (t : DailyTransport)
    (message : value) (sender : string) (st : state) :
  exists new,
    exec (on_app_message w b t message sender) st
      = {| heap := heap st; trace := trace st ++ new |} /\
    end_requests new = [].
Proof.
  unfold exec, on_app_message, try_except, app_message_body, bind, eval, emit, invoke, ret.
  destruct st as [h tr]; simpl.
  destruct (contains "latency-ping" message) as [[|]|e] eqn:Hin; simpl.
  - destruct (getitem message "latency-ping") as [ping|e] eqn:Hping; simpl.
    + destruct (getitem ping "ts") as [ts|e] eqn:Hts; simpl.
      * destruct (w _ _) as [e|]; simpl; [|destruct (w _ _) as [e|]; simpl];
          try destruct (is_Exception e); simpl;
          rewrite <- ?(assoc_L (++)); eexists; split; reflexivity.
      * rewrite (getitem_raises_Exception _ _ _ Hts); simpl.
        rewrite <- ?(assoc_L (++)); eexists; split; reflexivity.
    + rewrite (getitem_raises_Exception _ _ _ Hping); simpl.
      rewrite <- ?(assoc_L (++)); eexists; split; reflexivity.
  - exists []. by rewrite app_nil_r.
  - rewrite (contains_raises_Exception _ _ _ Hin); simpl.
    eexists; split; reflexivity.
Qed.

(** One event: what its handler adds to the trace holds one [EndFrame]
    request for the task when the event is a departure, none otherwise. *)
Lemma handle_end_requests (w : world) (b : bot) (ev : event) (st : state) :
  exists new,
    trace (exec (handle w b ev) st) = trace st ++ new /\
    end_requests new = if is_participant_left ev then [task b] else [].
Proof.
  destruct ev as [participant reason|participant|message sender];
    unfold handle, is_participant_left.
  - rewrite on_participant_left_step. eexists; split; reflexivity.
  - rewrite on_first_participant_joined_step. eexists; split; reflexivity.
  - destruct (on_app_message_step w b (transport b) message sender st) as (new & -> & Hnew).
    by exists new.
Qed.

Lemma deliver_end_requests (w : world) (b : bot) (events : list event) (st : state) :
  exists new,
    trace (deliver w b events st) = trace st ++ new /\
    end_requests new = replicate (departures events) (task b).
Proof.
  revert st. induction events as [|ev events IH]; intros st.
  - exists []. by rewrite app_nil_r.
  - destruct (handle_end_requests w b ev st) as (new1 & Htr1 & Hreq1).
    destruct (IH (exec (handle w b ev) st)) as (new2 & Htr2 & Hreq2).
    exists (new1 ++ new2). split.
    + change (deliver w b (ev :: events) st)
        with (deliver w b events (exec (handle w b ev) st)).
      by rewrite Htr2, Htr1, (assoc_L (++)).
    + unfold end_requests in *. rewrite omap_app, Hreq1, Hreq2.
      unfold departures; simpl. by destruct (is_participant_left ev).
Qed.

(** C5.  The participant-left handler queues one [EndFrame] on the task
    and does nothing else: the heap is the same and the call is the only
    addition to the trace, whether or not the call raises.  Over any
    sequence of events, the task is asked to end once per departure. *)
Theorem participant_left_ends_task_once (w : world) (b : bot) (t : DailyTransport)
    (participant reason : value) (events : list event) (st : state) :
  exec (on_participant_left w b t participant reason) st
    = {| heap := heap st;
         trace := trace st ++ [Called (QueueFrame (task b) EndFrame)] |} /\
  end_requests (since st (exec (handle w b (ParticipantLeft participant reason)) st))
    = [task b] /\
  end_requests (since st (deliver w b events st))
    = replicate (departures events) (task b).
Proof.
  split_and!.
  - apply on_participant_left_step.
  - unfold handle. rewrite on_participant_left_step. by rewrite since_app.
  - destruct (deliver_end_requests w b events st) as (new & Htr & Hreq).
    unfold since. by rewrite Htr, drop_app_length.
Qed.

Lemma participant_left_ends_task_once_witness :
  end_requests
    (since Sample.ready
       (deliver Sample.send_fails Sample.the_bot
          [AppMessage Sample.ping "alice";
           ParticipantLeft (VDict [("id", VStr "p1")]) (VStr "leftCall");
           FirstParticipantJoined (VDict [("id", VStr "p2")]);
           ParticipantLeft (VDict [("id", VStr "p2")]) (VStr "leftCall")]
          Sample.ready))
  = [task Sample.the_bot; task Sample.the_bot].
Proof.
  apply (participant_left_ends_task_once Sample.send_fails Sample.the_bot
           (transport Sample.the_bot) VNone VNone).
Defined.




(** ** The transcript list *)

Lemma build_returns (environ : gmap string string)
    (settings : Settings.BotSettings) (st : state) :
  let l := fresh (dom (heap st)) in
  build environ settings st
  = (Ok (assemble environ settings l),
     {| heap := <[l := [message_dict "system" system_prompt]]> (heap st);
        trace := trace st |}).
Proof. reflexivity. Qed.

(** C8.  [main] creates one list object for the transcript and hands that
    same object to the user aggregator and to the assistant aggregator; the
    first-participant-joined handler appends to that object, so after any run
    of the handler both aggregators read the list with the instruction
    appended. *)
Theorem transcript_shared_by_aggregators (environ : gmap string string)
    (settings : Settings.BotSettings) (st : state) :
  exists (b : bot) (st1 : state),
    build environ settings st = (Ok b, st1) /\
    heap st !! messages b = None /\
    heap st1 !! messages b = Some [message_dict "system" system_prompt] /\
    agg_messages (tma_in b) = messages b /\
    agg_messages (tma_out b) = messages b /\
    forall (w : world) (t : DailyTransport) (participant : value)
           (st2 : state) (items : list value),
      heap st2 !! messages b = Some items ->
      let st3 := exec (on_first_participant_joined w b t participant) st2 in
      heap st3 !! agg_messages (tma_in b) = Some (items ++ [introduce_yourself]) /\
      heap st3 !! agg_messages (tma_out b) = Some (items ++ [introduce_yourself]).
Proof.
  eexists _, _. split; [apply build_returns|]. simpl. split_and!.
  - apply (not_elem_of_dom (D := gset loc)), is_fresh.
  - apply lookup_insert_eq.
  - reflexivity.
  - reflexivity.
  - intros w t participant st2 items Hitems. simpl.
    by rewrite lookup_alter_eq, Hitems.
Qed.

Lemma transcript_shared_by_aggregators_witness :
  let st := exec (on_first_participant_joined Sample.quiet Sample.the_bot
                    (transport Sample.the_bot) VNone) Sample.ready in
  heap st !! agg_messages (tma_in Sample.the_bot)
    = Some [message_dict "system" system_prompt; introduce_yourself] /\
  heap st !! agg_messages (tma_out Sample.the_bot)
    = Some [message_dict "system" system_prompt; introduce_yourself].
Proof.
  destruct (transcript_shared_by_aggregators ∅ Sample.settings start)
    as (b & st1 & Hbuild & _ & _ & _ & _ & Hshared).
  rewrite build_returns in Hbuild. injection Hbuild as <- <-.
  apply (Hshared Sample.quiet (transport Sample.the_bot) VNone Sample.ready
           [message_dict "system" system_prompt]).
  reflexivity.
Defined.

(** ** Construction of the transport and the services *)

Lemma splat_kwarg (name : string) (v : option string) :
  kwarg name (splat name v) = if truthy v then Some (AStr v) else None.
Proof.
  unfold splat. destruct (truthy v); simpl; [|done].
  by rewrite String.eqb_refl.
Qed.

Lemma truthy_set_and_non_empty (environ : gmap string string) (name : string) :
  truthy (getenv environ name) = true <-> set_and_non_empty environ name.
Proof.
  unfold truthy, getenv, set_and_non_empty.
  destruct (environ !! name) as [v|]; split.
  - intros H. exists v. split; [done|]. intros ->. discriminate.
  - intros (v' & [= <-] & Hne). destruct (String.eqb_spec v ""); done.
  - discriminate.
  - by intros (v' & [=] & _).
Qed.

(** C7 (as amended).  The transport is built from [room_url], [room_token]
    and [bot_name] of the settings.  The two speech services take their key
    from [DEEPGRAM_API_KEY] and receive their endpoint keyword ([url],
    [base_url]) if and only if [DEEPGRAM_STT_URL], [DEEPGRAM_TTS_BASE_URL]
    is set and not empty, and then with its value.  The language service
    always receives [api_key], [model] and [base_url], each with whatever
    [os.getenv] returns for [OPENAI_API_KEY], [OPENAI_MODEL] and
    [OPENAI_BASE_URL]. *)
Theorem services_built_from_environment (environ : gmap string string)
    (settings : Settings.BotSettings) (st : state) :
  exists (b : bot) (st1 : state),
    build environ settings st = (Ok b, st1) /\
    t_room_url (transport b) = Settings.room_url settings /\
    t_token (transport b) = Settings.room_token settings /\
    t_bot_name (transport b) = Settings.bot_name settings /\
    kwarg "api_key" (kwargs (stt b)) = Some (AStr (environ !! "DEEPGRAM_API_KEY")) /\
    (is_Some (kwarg "url" (kwargs (stt b)))
       <-> set_and_non_empty environ "DEEPGRAM_STT_URL") /\
    (forall a, kwarg "url" (kwargs (stt b)) = Some a
       -> a = AStr (environ !! "DEEPGRAM_STT_URL")) /\
    kwarg "api_key" (kwargs (tts b)) = Some (AStr (environ !! "DEEPGRAM_API_KEY")) /\
    kwarg "voice" (kwargs (tts b)) = Some (AStr (Some "aura-asteria-en")) /\
    (is_Some (kwarg "base_url" (kwargs (tts b)))
       <-> set_and_non_empty environ "DEEPGRAM_TTS_BASE_URL") /\
    (forall a, kwarg "base_url" (kwargs (tts b)) = Some a
       -> a = AStr (environ !! "DEEPGRAM_TTS_BASE_URL")) /\
    kwarg "api_key" (kwargs (llm b)) = Some (AStr (environ !! "OPENAI_API_KEY")) /\
    kwarg "model" (kwargs (llm b)) = Some (AStr (environ !! "OPENAI_MODEL")) /\
    kwarg "base_url" (kwargs (llm b)) = Some (AStr (environ !! "OPENAI_BASE_URL")).
Proof.
  eexists _, _. split; [apply build_returns|].
  assert (Hstt : kwarg "url" (kwargs (make_stt environ))
                 = kwarg "url" (splat "url" (getenv environ "DEEPGRAM_STT_URL")))
    by reflexivity.
  assert (Htts : kwarg "base_url" (kwargs (make_tts environ))
                 = kwarg "base_url"
                     (splat "base_url" (getenv environ "DEEPGRAM_TTS_BASE_URL")))
    by reflexivity.
  rewrite splat_kwarg in Hstt, Htts.
  change (stt (assemble environ settings (fresh (dom (heap st)))))
    with (make_stt environ).
  change (tts (assemble environ settings (fresh (dom (heap st)))))
    with (make_tts environ).
  rewrite Hstt, Htts. clear Hstt Htts. rewrite <- !truthy_set_and_non_empty.
  split_and!; try reflexivity.
  - destruct (truthy _); split; intros H; try done; by destruct H.
  - intros a. destruct (truthy _); [by intros [= <-]|done].
  - destruct (truthy _); split; intros H; try done; by destruct H.
  - intros a. destruct (truthy _); [by intros [= <-]|done].
Qed.

Lemma services_built_from_environment_witness :
  set_and_non_empty Sample.full_environ "DEEPGRAM_STT_URL" /\
  kwarg "url" (kwargs (make_stt Sample.full_environ))
    = Some (AStr (Some "wss://stt.example/v1/listen")).
Proof.
  destruct (services_built_from_environment Sample.full_environ Sample.settings start)
    as (b & st1 & Hbuild & _ & _ & _ & _ & Hiff & Hurl & _).
  rewrite build_returns in Hbuild. injection Hbuild as <- <-.
  assert (Hset : set_and_non_empty Sample.full_environ "DEEPGRAM_STT_URL").
  { exists "wss://stt.example/v1/listen". split; [reflexivity|discriminate]. }
  split; [exact Hset|].
  apply Hiff in Hset as [a Ha].
  change (kwarg "url" (kwargs (make_stt Sample.full_environ)) = Some a) in Ha.
  rewrite Ha. f_equal. by apply Hurl.
Defined.

(** C7, as it is stated, fails for the language service: with
    [OPENAI_BASE_URL] set to the empty string, [base_url=""] is passed to
    [OpenAILLMService] although the variable is empty; and with the variable
    unset the keyword is passed all the same, as [None]. *)
Lemma openai_base_url_always_passed :
  override "base_url" (llm (assemble Sample.empty_base_url Sample.settings 0%nat))
    = Some "" /\
  ~ set_and_non_empty Sample.empty_base_url "OPENAI_BASE_URL" /\
  kwarg "base_url" (kwargs (llm (assemble ∅ Sample.settings 0%nat)))
    = Some (AStr None) /\
  ~ set_and_non_empty ∅ "OPENAI_BASE_URL".
Proof.
  split_and!.
  - reflexivity.
  - intros (v & Hv & Hne). apply Hne.
    unfold Sample.empty_base_url in Hv. rewrite lookup_insert_eq in Hv. congruence.
  - reflexivity.
  - intros (v & Hv & _). by rewrite lookup_empty in Hv.
Qed.

(** ** Which settings [main] reads *)

Lemma assemble_reads_room_only (environ : gmap string string)
    (s1 s2 : Settings.BotSettings) (l : loc) :
  Settings.room_url s1 = Settings.room_url s2 ->
  Settings.room_token s1 = Settings.room_token s2 ->
  Settings.bot_name s1 = Settings.bot_name s2 ->
  assemble environ s1 l = assemble environ s2 l.
Proof.
  intros Hurl Htoken Hname. unfold assemble, make_transport.
  by rewrite Hurl, Htoken, Hname.
Qed.

(** C10.  Two settings records with the same [room_url], [room_token] and
    [bot_name] make the same program, whatever their other fields hold:
    [main] builds the same objects, leaves the same state with the same
    result in every world and environment, and the handlers it registers
    react to every event in the same way. *)
Theorem main_reads_room_settings_only (w : world) (environ : gmap string string)
    (s1 s2 : Settings.BotSettings) (st : state) :
  Settings.room_url s1 = Settings.room_url s2 ->
  Settings.room_token s1 = Settings.room_token s2 ->
  Settings.bot_name s1 = Settings.bot_name s2 ->
  build environ s1 st = build environ s2 st /\
  main w environ s1 st = main w environ s2 st /\
  forall (l : loc) (ev : event) (st' : state),
    handle w (assemble environ s1 l) ev st' = handle w (assemble environ s2 l) ev st'.
Proof.
  intros Hurl Htoken Hname.
  pose proof (fun l => assemble_reads_room_only environ s1 s2 l Hurl Htoken Hname) as Heq.
  split_and!.
  - by rewrite !build_returns, Heq.
  - unfold main, bind. by rewrite !build_returns, Heq.
  - intros l ev st'. by rewrite Heq.
Qed.

Lemma main_reads_room_settings_only_witness :
  Sample.settings <> Sample.other_settings /\
  main Sample.quiet Sample.full_environ Sample.settings start
  = main Sample.quiet Sample.full_environ Sample.other_settings start.
Proof.
  split; [discriminate|].
  by apply (main_reads_room_settings_only Sample.quiet Sample.full_environ
              Sample.settings Sample.other_settings start).
Defined.

(** ** Validation of the settings *)

Section fields.
Import Settings.
Variable doc : list (string * value).

Lemma str_field_required (name : string) :
  has_str name doc <-> exists s, str_field name None doc = inl s.
Proof.
  unfold has_str, str_field. split.
  - intros (s & ->). by exists s.
  - intros (s & Hs). destruct (dict_get name doc) as [[]|]; try discriminate.
    by eexists.
Qed.

Lemma str_field_required_value (name s : string) :
  str_field name None doc = inl s -> dict_get name doc = Some (VStr s).
Proof.
  unfold str_field. destruct (dict_get name doc) as [[]|]; try discriminate.
  by intros [= ->].
Qed.

Lemma str_field_defaulted (name dflt : string) :
  str_if_present name doc <-> exists s, str_field name (Some dflt) doc = inl s.
Proof.
  unfold str_if_present, has_str, str_field. split.
  - intros [->|(s & ->)]; by eexists.
  - intros (s & Hs). destruct (dict_get name doc) as [[]|]; try discriminate.
    + right. by eexists.
    + by left.
Qed.

Lemma str_field_omitted (name dflt s : string) :
  dict_get name doc = None -> str_field name (Some dflt) doc = inl s -> s = dflt.
Proof. unfold str_field. intros ->. by intros [= <-]. Qed.

Lemma optional_str_field_accepts (name : string) (dflt : option string) :
  str_or_null_if_present name doc
  <-> exists v, optional_str_field name dflt doc = inl v.
Proof.
  unfold str_or_null_if_present, has_str, optional_str_field. split.
  - intros [->|[->|(s & ->)]]; by eexists.
  - intros (s & Hs). destruct (dict_get name doc) as [[]|]; try discriminate.
    + right; by left.
    + right; right. by eexists.
    + by left.
Qed.

Lemma optional_str_field_omitted (name : string) (dflt v : option string) :
  dict_get name doc = None -> optional_str_field name dflt doc = inl v -> v = dflt.
Proof. unfold optional_str_field. intros ->. by intros [= <-]. Qed.

End fields.

Lemma ap_inl {A B : Type} (f : Settings.checked (A -> B)) (x : Settings.checked A) (y : B) :
  Settings.ap f x = inl y -> exists g a, f = inl g /\ x = inl a /\ y = g a.
Proof.
  destruct f as [g|e1], x as [a|e2]; simpl; try discriminate.
  intros [= <-]. by exists g, a.
Qed.

(** A document passes validation exactly when it matches the schema. *)
Lemma validate_accepts_schema (doc : list (string * value)) :
  Settings.matches_schema doc <-> exists s, Settings.validate doc = inl s.
Proof.
  unfold Settings.matches_schema, Settings.optional_fields. split.
  - intros (Hurl & Htoken & Hname & Hopt).
    repeat (apply Forall_cons in Hopt as [? Hopt]).
    apply str_field_required in Hurl as [url Hurl], Htoken as [token Htoken].
    apply (str_field_defaulted doc _ Settings.default_bot_name) in Hname as [name Hname].
    unfold Settings.validate.
    rewrite Hurl, Htoken, Hname.
    repeat match goal with
           | H : Settings.str_or_null_if_present ?n doc
             |- context [Settings.optional_str_field ?n ?d doc] =>
               apply (optional_str_field_accepts doc n d) in H as [? ->]
           end.
    by eexists.
  - intros (s & Hs). unfold Settings.validate in Hs.
    repeat (apply ap_inl in Hs as (? & ? & Hs & ? & _)).
    split_and!.
    + apply str_field_required; eauto.
    + apply str_field_required; eauto.
    + eapply str_field_defaulted; eauto.
    + repeat apply Forall_cons_2; try apply Forall_nil_2;
        eapply optional_str_field_accepts; eauto.
Qed.

(** C2.  A settings text that is JSON and matches the schema of
    [BotSettings] validates, and the record has the declared default in
    every optional field that the text omits. *)
Theorem valid_settings_take_defaults (json_loads : string -> option value)
    (text : string) (doc : list (string * value)) :
  json_loads text = Some (VDict doc) ->
  Settings.matches_schema doc ->
  exists s : Settings.BotSettings,
    Settings.model_validate_json json_loads text = Ok s /\
    dict_get "room_url" doc = Some (VStr (Settings.room_url s)) /\
    dict_get "room_token" doc = Some (VStr (Settings.room_token s)) /\
    (dict_get "bot_name" doc = None -> Settings.bot_name s = "Pipecat") /\
    (dict_get "prompt" doc = None ->
       Settings.prompt s = Some "You are a helpful LLM in a WebRTC call. Your goal is to demonstrate your capabilities in a succinct way. Respond to what the user said in a creative and helpful way in a few short sentences.") /\
    (dict_get "deepgram_api_key" doc = None -> Settings.deepgram_api_key s = None) /\
    (dict_get "deepgram_voice" doc = None ->
       Settings.deepgram_voice s = Some "aura-asteria-en") /\
    (dict_get "deepgram_base_url" doc = None ->
       Settings.deepgram_base_url s = Some "https://api.deepgram.com/v1/speak") /\
    (dict_get "openai_api_key" doc = None -> Settings.openai_api_key s = None) /\
    (dict_get "openai_model" doc = None -> Settings.openai_model s = Some "gpt-4o") /\
    (dict_get "openai_base_url" doc = None -> Settings.openai_base_url s = None).
Proof.
  intros Hjson [s Hs]%validate_accepts_schema.
  exists s. unfold Settings.model_validate_json. rewrite Hjson, Hs.
  split; [done|].
  unfold Settings.validate in Hs.
  repeat (apply ap_inl in Hs as (? & ? & Hs & ? & ->)).
  injection Hs as <-. simpl.
  split_and!;
    eauto using str_field_required_value, str_field_omitted, optional_str_field_omitted.
Qed.

Lemma valid_settings_take_defaults_witness :
  exists s : Settings.BotSettings,
    Settings.model_validate_json Sample.json_loads Sample.minimal_text = Ok s /\
    s = Sample.settings.
Proof.
  destruct (valid_settings_take_defaults Sample.json_loads Sample.minimal_text
              Sample.minimal_doc)
    as (s & Hs & _).
  - reflexivity.
  - unfold Settings.matches_schema, Settings.has_str, Settings.str_if_present,
      Settings.str_or_null_if_present, Settings.optional_fields; simpl.
    split_and!; eauto. repeat constructor.
  - exists s. split; [exact Hs|]. vm_compute in Hs. injection Hs as <-. reflexivity.
Defined.

(** A text that is not a valid settings document raises a
    [ValidationError]. *)
Lemma invalid_settings_rejected (json_loads : string -> option value) (text : string) :
  ~ Settings.valid_settings json_loads text ->
  exists errors,
    Settings.model_validate_json json_loads text = Raise (ValidationError errors).
Proof.
  intros Hinvalid. unfold Settings.model_validate_json.
  destruct (json_loads text) as [[| | | | | |doc]|] eqn:Hjson; try by eexists.
  destruct (Settings.validate doc) as [s|errors] eqn:Hs; [|by eexists].
  destruct Hinvalid. exists doc. split; [done|].
  apply validate_accepts_schema. by exists s.
Qed.

(** ** The [__main__] block *)

(** C3.  When the settings text is not valid (it is not JSON, or it does
    not match the schema), validation raises a [ValidationError]; the script
    prints it and reaches its end: [main] is not started, no framework call
    is made, nothing is allocated, and the script does not leave with an exit
    status of its own. *)
Theorem invalid_settings_start_nothing (parse_known_args : argparse)
    (json_loads : string -> option value) (w : world)
    (environ : gmap string string) (argv : list string)
    (text : string) (unknown : list string) :
  parse_known_args parser argv = Namespace text unknown ->
  ~ Settings.valid_settings json_loads text ->
  exists errors,
    Settings.model_validate_json json_loads text = Raise (ValidationError errors) /\
    script parse_known_args json_loads w environ argv
      = (EndOfScript,
         {| heap := ∅; trace := [Printed (ValidationError errors)] |}) /\
    main_runs (trace (snd (script parse_known_args json_loads w environ argv))) = [] /\
    calls (trace (snd (script parse_known_args json_loads w environ argv))) = [].
Proof.
  intros Hargs [errors Herr]%invalid_settings_rejected.
  exists errors. split; [done|].
  unfold script, run_settings, try_except, bind, eval.
  by rewrite Hargs, Herr.
Qed.

Lemma invalid_settings_start_nothing_witness :
  script Sample.parse_known_args Sample.json_loads Sample.quiet Sample.full_environ
    ["-s"; Sample.no_room_text]
  = (EndOfScript,
     {| heap := ∅; trace := [Printed (ValidationError [("room_url", "missing")])] |}).
Proof.
  destruct (invalid_settings_start_nothing Sample.parse_known_args Sample.json_loads
              Sample.quiet Sample.full_environ ["-s"; Sample.no_room_text]
              Sample.no_room_text [])
    as (errors & Herr & Hscript & _).
  - reflexivity.
  - intros (doc & Hdoc & Hurl & _). vm_compute in Hdoc. injection Hdoc as <-.
    destruct Hurl as [s Hs]. discriminate.
  - rewrite Hscript. vm_compute in Herr. by injection Herr as <-.
Defined.

(** ** The script on valid settings *)

(** The script when the settings text validates: everything it does. *)
Lemma script_on_valid_settings (parse_known_args : argparse)
    (json_loads : string -> option value) (w : world)
    (environ : gmap string string) (argv : list string)
    (text : string) (unknown : list string) (s : Settings.BotSettings) :
  parse_known_args parser argv = Namespace text unknown ->
  Settings.model_validate_json json_loads text = Ok s ->
  let run := RunnerRun (task (assemble environ s 0%nat)) in
  let h : gmap loc (list value) := <[0%nat := [message_dict "system" system_prompt]]> ∅ in
  script parse_known_args json_loads w environ argv
  = match w [RunMain s] run with
    | None => (EndOfScript, {| heap := h; trace := [RunMain s; Called run] |})
    | Some e =>
        if is_ValidationError e
        then (EndOfScript, {| heap := h; trace := [RunMain s; Called run; Printed e] |})
        else (Traceback e, {| heap := h; trace := [RunMain s; Called run] |})
    end.
Proof.
  intros Hargs Hvalid; simpl.
  unfold script, run_settings, try_except, bind, eval, emit, main, invoke.
  rewrite Hargs, Hvalid; simpl.
  change (fresh (dom (∅ : gmap loc (list value)))) with 0%nat.
  destruct (w _ _) as [e|]; [|done].
  by destruct (is_ValidationError e).
Qed.

(** ** The command line *)

Example parse_settings_and_unknown :
  Argparse.parse_known_args parser ["-s"; Sample.minimal_text; "--foo=bar"; "baz"]
  = Namespace Sample.minimal_text ["--foo=bar"; "baz"].
Proof. reflexivity. Qed.

Example parse_settings_forms :
  Argparse.parse_known_args parser ["--settings=a"] = Namespace "a" [] /\
  Argparse.parse_known_args parser ["-sa"] = Namespace "a" [] /\
  Argparse.parse_known_args parser ["--se"; "a"; "--"; "b"] = Namespace "a" ["--"; "b"] /\
  Argparse.parse_known_args parser ["-s"; "-1.5"] = Namespace "-1.5" [].
Proof. by split_and!. Qed.

Example parse_errors :
  Argparse.parse_known_args parser [] = SystemExit 2 /\
  Argparse.parse_known_args parser ["-s"] = SystemExit 2 /\
  Argparse.parse_known_args parser ["-s"; "--"; "a"] = SystemExit 2 /\
  Argparse.parse_known_args parser ["--=a"] = SystemExit 2 /\
  Argparse.parse_known_args parser ["-hx"] = SystemExit 2 /\
  Argparse.parse_known_args parser ["-h"; "-s"] = SystemExit 0.
Proof. by split_and!. Qed.











(** * Further properties of the handlers *)

Lemma ping_timestamp_Some (message ts : value) :
  ping_timestamp message = Some ts <->
  exists ping, getitem message "latency-ping" = Ok ping /\ getitem ping "ts" = Ok ts.
Proof.
  unfold ping_timestamp. split.
  - destruct (getitem message "latency-ping") as [ping|e]; [|done].
    destruct (getitem ping "ts") as [ts'|e] eqn:Hts; [|done].
    intros [= <-]. by exists ping.
  - intros (ping & -> & ->). done.
Qed.

(** The handler on a message that is not a well-formed ping: it may log,
    and does nothing else. *)
Lemma on_app_message_no_ping (w : world) (b : bot) (t : DailyTransport)
    (message : value) (sender : string) (st : state) :
  ping_timestamp message = None ->
  exists new,
    exec (on_app_message w b t message sender) st
      = {| heap := heap st; trace := trace st ++ new |} /\
    calls new = [].
Proof.
  unfold ping_timestamp. intros Hno.
  unfold exec, on_app_message, try_except, app_message_body, bind, eval, emit, invoke, ret.
  destruct st as [h tr]; simpl.
  destruct (contains "latency-ping" message) as [[|]|e] eqn:Hin; simpl.
  - destruct (getitem message "latency-ping") as [ping|e] eqn:Hping; simpl.
    + destruct (getitem ping "ts") as [ts|e] eqn:Hts; [done|]; simpl.
      rewrite (getitem_raises_Exception _ _ _ Hts); simpl.
      rewrite <- (assoc_L (++)). eexists; split; reflexivity.
    + rewrite (getitem_raises_Exception _ _ _ Hping); simpl.
      rewrite <- (assoc_L (++)). eexists; split; reflexivity.
  - exists []. by rewrite app_nil_r.
  - rewrite (contains_raises_Exception _ _ _ Hin); simpl.
    eexists; split; reflexivity.
Qed.


(** X2.  Every framework call of [on_app_message] is a [send_message] on
    the transport it was given or a [push_frame] on the user aggregator, with
    a frame addressed to the sender of the message: the handler replies to
    nobody else, queues nothing on the task and does not start the runner. *)
Theorem app_message_replies_to_sender_only (w : world) (b : bot) (t : DailyTransport)
    (message : value) (sender : string) (st : state) :
  Forall (fun c => exists f, (c = SendMessage t f \/ c = PushFrame (tma_in b) f)
                             /\ addressee f = Some sender)
    (calls (since st (exec (on_app_message w b t message sender) st))).
Proof.
  destruct (ping_timestamp message) as [ts|] eqn:Hping.
  - apply ping_timestamp_Some in Hping as (ping & Hping & Hts).
    unfold exec. rewrite (on_app_message_ping w b t _ _ _ sender st Hping Hts); simpl.
    unfold guarded.
    destruct (w _ _) as [e|]; [|destruct (w _ _) as [e|]];
      try destruct (is_Exception e); simpl;
      rewrite <- ?(assoc_L (++)), since_app; simpl;
      repeat constructor; eexists; split; eauto.
  - destruct (on_app_message_no_ping w b t message sender st Hping) as (new & -> & Hnew).
    rewrite since_app, Hnew. constructor.
Qed.

(** ** Sequences of events *)

(** What one application message adds: never a batch for the task, never
    more pushed frames than sent ones, never more than one of each. *)
Lemma on_app_message_effects (w : world) (b : bot) (t : DailyTransport)
    (message : value) (sender : string) (st : state) :
  exists new,
    exec (on_app_message w b t message sender) st
      = {| heap := heap st; trace := trace st ++ new |} /\
    queued_transcripts new = [] /\
    length (pushed new) <= length (sent new) /\
    length (sent new) <= 1.
Proof.
  unfold exec, on_app_message, try_except, app_message_body, bind, eval, emit, invoke, ret.
  destruct st as [h tr]; simpl.
  destruct (contains "latency-ping" message) as [[|]|e] eqn:Hin; simpl.
  - destruct (getitem message "latency-ping") as [ping|e] eqn:Hping; simpl.
    + destruct (getitem ping "ts") as [ts|e] eqn:Hts; simpl.
      * destruct (w _ _) as [e|]; simpl; [|destruct (w _ _) as [e|]; simpl];
          try destruct (is_Exception e); simpl;
          rewrite <- ?(assoc_L (++)); eexists; split_and!;
          try reflexivity; try (simpl; lia).
      * rewrite (getitem_raises_Exception _ _ _ Hts); simpl.
        rewrite <- ?(assoc_L (++)); eexists; split_and!; try reflexivity; try (simpl; lia).
    + rewrite (getitem_raises_Exception _ _ _ Hping); simpl.
      rewrite <- ?(assoc_L (++)); eexists; split_and!; try reflexivity; try (simpl; lia).
  - exists []. rewrite app_nil_r. split_and!; try reflexivity; try (simpl; lia).
  - rewrite (contains_raises_Exception _ _ _ Hin); simpl.
    eexists; split_and!; try reflexivity; try (simpl; lia).
Qed.

(** One event: the heap and the trace after its handler. *)
Lemma handle_effects (w : world) (b : bot) (ev : event) (st : state) :
  exists new,
    exec (handle w b ev) st
      = {| heap := if is_first_participant_joined ev
                   then alter (fun items => items ++ [introduce_yourself])
                          (messages b) (heap st)
                   else heap st;
           trace := trace st ++ new |} /\
    queued_transcripts new
      = (if is_first_participant_joined ev then [messages b] else []) /\
    length (pushed new) <= length (sent new) /\
    length (sent new) <= (if is_app_message ev then 1 else 0).
Proof.
  destruct ev as [participant reason|participant|message sender];
    unfold handle, is_first_participant_joined, is_app_message.
  - rewrite on_participant_left_step. eexists; split_and!; try reflexivity; try (simpl; lia).
  - rewrite on_first_participant_joined_step.
    eexists; split_and!; try reflexivity; try (simpl; lia).
  - apply on_app_message_effects.
Qed.

Lemma deliver_replies (w : world) (b : bot) (events : list event) :
  forall st : state,
    exists new,
      trace (deliver w b events st) = trace st ++ new /\
      length (pushed new) <= length (sent new) /\
      length (sent new) <= app_messages events.
Proof.
  induction events as [|ev events IH]; intros st.
  - exists []. simpl. rewrite app_nil_r. split_and!; try done; simpl; lia.
  - destruct (handle_effects w b ev st) as (new1 & Hstep & _ & Hp1 & Hs1).
    change (deliver w b (ev :: events) st)
      with (deliver w b events (exec (handle w b ev) st)).
    destruct (IH (exec (handle w b ev) st)) as (new2 & Htr & Hp2 & Hs2).
    exists (new1 ++ new2). split_and!.
    + rewrite Htr, Hstep; simpl. by rewrite (assoc_L (++)).
    + unfold pushed, sent in *. rewrite !omap_app, !length_app. lia.
    + unfold sent in *. rewrite omap_app, length_app.
      unfold app_messages in *; simpl.
      destruct (is_app_message ev); simpl; lia.
Qed.

(** X5.  Over any sequence of events, in any world, the handlers never push
    more pong frames into the pipeline than they hand to [send_message], and
    never send more than one immediate pong per application message:
    departures and arrivals cause no reply. *)
Theorem replies_bounded_by_messages (w : world) (b : bot) (events : list event)
    (st : state) :
  let new := since st (deliver w b events st) in
  length (pushed new) <= length (sent new) /\
  length (sent new) <= app_messages events.
Proof.
  simpl. destruct (deliver_replies w b events st) as (new & Htr & Hp & Hs).
  unfold since. by rewrite Htr, drop_app_length.
Qed.

(** ** Failures of the framework calls *)

(** X6.  The two participant handlers do not guard their framework call:
    when [queue_frame] or [queue_frames] raises, the exception leaves the
    handler.  The join handler has appended its instruction by then, and the
    append stays: the transcript holds the instruction whether or not the
    frame could be queued. *)
Theorem participant_handlers_let_errors_out (w : world) (b : bot) (t : DailyTransport)
    (participant reason : value) (st : state) (items : list value) :
  heap st !! messages b = Some items ->
  outcome (on_participant_left w b t participant reason) st
    = match w (trace st) (QueueFrame (task b) EndFrame) with
      | None => Ok tt
      | Some e => Raise e
      end /\
  outcome (on_first_participant_joined w b t participant) st
    = match w (trace st) (QueueFrames (task b) [LLMMessagesFrame (messages b)]) with
      | None => Ok tt
      | Some e => Raise e
      end /\
  heap (exec (on_first_participant_joined w b t participant) st) !! messages b
    = Some (items ++ [introduce_yourself]).
Proof.
  intros Hitems. split_and!.
  - reflexivity.
  - reflexivity.
  - rewrite on_first_participant_joined_step; simpl.
    by rewrite lookup_alter_eq, Hitems.
Qed.

Lemma participant_handlers_let_errors_out_witness :
  outcome (on_first_participant_joined Sample.queue_fails Sample.the_bot
             (transport Sample.the_bot) VNone) Sample.ready
    = Raise (OtherException "task is not running") /\
  heap (exec (on_first_participant_joined Sample.queue_fails Sample.the_bot
                (transport Sample.the_bot) VNone) Sample.ready)
    !! messages Sample.the_bot
    = Some [message_dict "system" system_prompt; introduce_yourself].
Proof.
  destruct (participant_handlers_let_errors_out Sample.queue_fails Sample.the_bot
              (transport Sample.the_bot) VNone VNone Sample.ready
              [message_dict "system" system_prompt] eq_refl)
    as (_ & Hout & Hheap).
  split; [exact Hout | exact Hheap].
Defined.

(** X7.  When the run of the task raises, the [except] clause of the
    script decides by the class of the exception: a [ValidationError] that
    comes out of [main] is printed and the script reaches its end, as for
    invalid settings; any other exception leaves the script uncaught and
    nothing is printed. *)
Theorem run_errors_at_top_level (parse_known_args : argparse)
    (json_loads : string -> option value) (w : world)
    (environ : gmap string string) (argv : list string)
    (text : string) (unknown : list string) (s : Settings.BotSettings) (e : exn) :
  parse_known_args parser argv = Namespace text unknown ->
  Settings.model_validate_json json_loads text = Ok s ->
  w [RunMain s] (RunnerRun (task (assemble environ s 0%nat))) = Some e ->
  let result := script parse_known_args json_loads w environ argv in
  fst result = (if is_ValidationError e then EndOfScript else Traceback e) /\
  printed (trace (snd result)) = (if is_ValidationError e then [e] else []).
Proof.
  intros Hargs Hvalid Hrun. cbv zeta.
  rewrite (script_on_valid_settings _ _ w environ _ _ _ _ Hargs Hvalid). cbv zeta.
  rewrite Hrun. by destruct (is_ValidationError e).
Qed.

Lemma run_errors_at_top_level_witness :
  script Sample.parse_known_args Sample.json_loads
    (Sample.run_fails (ValidationError [("frame", "model_type")]))
    Sample.full_environ ["-s"; Sample.minimal_text]
  = (EndOfScript,
     {| heap := <[0%nat := [message_dict "system" system_prompt]]> ∅;
        trace := [RunMain Sample.settings;
                  Called (RunnerRun (task (assemble Sample.full_environ
                                             Sample.settings 0%nat)));
                  Printed (ValidationError [("frame", "model_type")])] |}) /\
  fst (script Sample.parse_known_args Sample.json_loads
         (Sample.run_fails (OtherException "connection lost"))
         Sample.full_environ ["-s"; Sample.minimal_text])
  = Traceback (OtherException "connection lost").
Proof.
  split.
  - reflexivity.
  - by apply (run_errors_at_top_level Sample.parse_known_args Sample.json_loads
                (Sample.run_fails (OtherException "connection lost"))
                Sample.full_environ ["-s"; Sample.minimal_text]
                Sample.minimal_text [] Sample.settings
                (OtherException "connection lost")).
Defined.

(** * Further properties of the settings *)

Lemma optional_str_field_value (doc : list (string * value))
    (name : string) (dflt v : option string) :
  Settings.optional_str_field name dflt doc = inl v ->
  (dict_get name doc = Some VNone -> v = None) /\
  (forall x, dict_get name doc = Some (VStr x) -> v = Some x).
Proof.
  unfold Settings.optional_str_field.
  destruct (dict_get name doc) as [[]|]; try discriminate; intros [= <-];
    split; try done; by intros x [= ->].
Qed.

(** X9.  In a record that validation returns, each [Optional[str]] field
    follows the document when the document has the key: a string is carried
    over as it is, and an explicit [null] gives [None], not the declared
    default. *)
Theorem optional_fields_follow_document (doc : list (string * value))
    (s : Settings.BotSettings) (name : string) :
  Settings.validate doc = inl s ->
  name ∈ Settings.optional_fields ->
  (dict_get name doc = Some VNone -> optional_value s name = None) /\
  (forall x, dict_get name doc = Some (VStr x) -> optional_value s name = Some x).
Proof.
  intros Hs Hname. unfold Settings.validate in Hs.
  repeat (apply ap_inl in Hs as (? & ? & Hs & ?%optional_str_field_value & ->)).
  repeat (apply ap_inl in Hs as (? & ? & Hs & _ & ->)).
  injection Hs as <-.
  unfold Settings.optional_fields in Hname.
  repeat (apply elem_of_cons in Hname as [->|Hname]; [done|]).
  by apply elem_of_nil in Hname.
Qed.

Lemma optional_fields_follow_document_witness :
  optional_value
    {| Settings.room_url := "https://example.daily.co/room";
       Settings.room_token := "token";
       Settings.bot_name := "Pipecat";
       Settings.prompt := None;
       Settings.deepgram_api_key := None;
       Settings.deepgram_voice := Some Settings.default_deepgram_voice;
       Settings.deepgram_base_url := Some Settings.default_deepgram_base_url;
       Settings.openai_api_key := None;
       Settings.openai_model := Some "gpt-4o-mini";
       Settings.openai_base_url := None |} "prompt" = None.
Proof.
  apply (optional_fields_follow_document Sample.busy_doc _ "prompt").
  - reflexivity.
  - unfold Settings.optional_fields. set_solver.
  - reflexivity.
Defined.

Lemma reports_ap_l {A B : Type} (f : Settings.checked (A -> B)) (x : Settings.checked A)
    (l : Settings.line) :
  reports f l -> reports (Settings.ap f x) l.
Proof.
  intros (errors & -> & Hl). destruct x as [a|errors']; simpl.
  - by exists errors.
  - exists (errors ++ errors'). split; [done|]. apply elem_of_app. by left.
Qed.

Lemma reports_ap_r {A B : Type} (f : Settings.checked (A -> B)) (x : Settings.checked A)
    (l : Settings.line) :
  reports x l -> reports (Settings.ap f x) l.
Proof.
  intros (errors & -> & Hl). destruct f as [g|errors']; simpl.
  - by exists errors.
  - exists (errors' ++ errors). split; [done|]. apply elem_of_app. by right.
Qed.

Lemma str_field_reports (doc : list (string * value)) (name : string)
    (dflt : option string) (v : value) :
  dict_get name doc = Some v ->
  (forall x, v <> VStr x) ->
  reports (Settings.str_field name dflt doc) (name, "string_type").
Proof.
  intros Hv Hstr. unfold Settings.str_field. rewrite Hv.
  destruct v; try (eexists; split; [reflexivity|set_solver]).
  by destruct (Hstr s).
Qed.

Lemma optional_str_field_reports (doc : list (string * value)) (name : string)
    (dflt : option string) (v : value) :
  dict_get name doc = Some v ->
  (forall x, v <> VStr x) ->
  v <> VNone ->
  reports (Settings.optional_str_field name dflt doc) (name, "string_type").
Proof.
  intros Hv Hstr Hnull. unfold Settings.optional_str_field. rewrite Hv.
  destruct v; try (eexists; split; [reflexivity|set_solver]).
  - done.
  - by destruct (Hstr s).
Qed.

(** X10.  Validation reports every offending field, not only the first
    one.  A required field that is absent is reported as [missing].  A field
    whose value is not a string is reported as [string_type]; [null] counts
    as such for [room_url], [room_token] and [bot_name], which are declared
    [str], and is accepted only for the [Optional[str]] fields. *)
Theorem every_field_error_reported (doc : list (string * value)) (name : string) :
  (name ∈ ["room_url"; "room_token"] -> dict_get name doc = None ->
   reports (Settings.validate doc) (name, "missing")) /\
  (forall v, name ∈ field_names -> dict_get name doc = Some v ->
     (forall x, v <> VStr x) ->
     (v = VNone -> name ∉ Settings.optional_fields) ->
     reports (Settings.validate doc) (name, "string_type")).
Proof.
  split.
  - intros Hname Hnone.
    assert (Hrep : reports (Settings.str_field name None doc) (name, "missing")).
    { unfold Settings.str_field. rewrite Hnone. eexists; split; [reflexivity|constructor]. }
    unfold Settings.validate.
    repeat (apply elem_of_cons in Hname as [->|Hname]);
      [| |by apply elem_of_nil in Hname].
    + do 9 apply reports_ap_l. by apply reports_ap_r.
    + do 8 apply reports_ap_l. by apply reports_ap_r.
  - intros v Hname Hv Hstr Hnull.
    assert (Hopt : name ∈ Settings.optional_fields -> v <> VNone)
      by (intros Hin ->; by apply Hnull).
    unfold Settings.validate, field_names in *.
    repeat (apply elem_of_cons in Hname as [->|Hname]);
      [.. | by apply elem_of_nil in Hname].
    + do 9 apply reports_ap_l. apply reports_ap_r. by eapply str_field_reports.
    + do 8 apply reports_ap_l. apply reports_ap_r. by eapply str_field_reports.
    + do 7 apply reports_ap_l. apply reports_ap_r. by eapply str_field_reports.
    + do 6 apply reports_ap_l. apply reports_ap_r.
      eapply optional_str_field_reports; eauto. apply Hopt. set_solver.
    + do 5 apply reports_ap_l. apply reports_ap_r.
      eapply optional_str_field_reports; eauto. apply Hopt. set_solver.
    + do 4 apply reports_ap_l. apply reports_ap_r.
      eapply optional_str_field_reports; eauto. apply Hopt. set_solver.
    + do 3 apply reports_ap_l. apply reports_ap_r.
      eapply optional_str_field_reports; eauto. apply Hopt. set_solver.
    + do 2 apply reports_ap_l. apply reports_ap_r.
      eapply optional_str_field_reports; eauto. apply Hopt. set_solver.
    + do 1 apply reports_ap_l. apply reports_ap_r.
      eapply optional_str_field_reports; eauto. apply Hopt. set_solver.
    + apply reports_ap_r.
      eapply optional_str_field_reports; eauto. apply Hopt. set_solver.
Qed.

Lemma every_field_error_reported_witness :
  Settings.validate Sample.bad_doc
    = inr [("room_url", "missing"); ("room_token", "string_type");
           ("bot_name", "string_type")] /\
  reports (Settings.validate Sample.bad_doc) ("room_url", "missing") /\
  reports (Settings.validate Sample.bad_doc) ("bot_name", "string_type").
Proof.
  split_and!.
  - reflexivity.
  - apply (every_field_error_reported Sample.bad_doc "room_url"); [set_solver|reflexivity].
  - apply (every_field_error_reported Sample.bad_doc "bot_name") with (v := VNone).
    + unfold field_names. set_solver.
    + reflexivity.
    + discriminate.
    + intros _. by apply (bool_decide_unpack _).
Defined.

(** X11.  Validation reads the ten declared keys and nothing else: two
    documents that agree on them give the same result, records and errors
    alike.  So keys that are not fields, and the order of the keys, do not
    matter. *)
Theorem validation_reads_declared_keys (doc1 doc2 : list (string * value)) :
  Forall (fun name => dict_get name doc1 = dict_get name doc2) field_names ->
  Settings.validate doc1 = Settings.validate doc2.
Proof.
  unfold field_names. intros Hsame.
  repeat (apply Forall_cons in Hsame as [? Hsame]).
  unfold Settings.validate, Settings.str_field, Settings.optional_str_field.
  repeat match goal with
         | H : dict_get _ doc1 = dict_get _ doc2 |- _ => rewrite H; clear H
         end.
  reflexivity.
Qed.

Lemma validation_reads_declared_keys_witness :
  Settings.validate Sample.busy_doc = Settings.validate Sample.busy_doc_sorted.
Proof.
  apply validation_reads_declared_keys.
  unfold field_names. repeat constructor.
Defined.

(** * Further properties of the construction *)

(** X12.  [main] reads six environment variables and no other: in two
    environments that agree on them it builds the same objects and runs the
    same way, in every world. *)
Theorem main_reads_six_variables (w : world) (environ1 environ2 : gmap string string)
    (settings : Settings.BotSettings) (st : state) :
  Forall (fun name => environ1 !! name = environ2 !! name) read_variables ->
  build environ1 settings st = build environ2 settings st /\
  main w environ1 settings st = main w environ2 settings st.
Proof.
  unfold read_variables. intros Hsame.
  repeat (apply Forall_cons in Hsame as [? Hsame]).
  assert (Heq : forall l, assemble environ1 settings l = assemble environ2 settings l).
  { intros l. unfold assemble, make_stt, make_tts, make_llm, getenv.
    repeat match goal with
           | H : environ1 !! _ = environ2 !! _ |- _ => rewrite H; clear H
           end.
    reflexivity. }
  split.
  - by rewrite !build_returns, Heq.
  - unfold main, bind. by rewrite !build_returns, Heq.
Qed.

Lemma main_reads_six_variables_witness :
  main Sample.quiet Sample.full_environ Sample.settings start
  = main Sample.quiet (<["HOME" := "/root"]> Sample.full_environ) Sample.settings start.
Proof.
  apply (main_reads_six_variables Sample.quiet Sample.full_environ
           (<["HOME" := "/root"]> Sample.full_environ) Sample.settings start).
  unfold read_variables. repeat constructor.
Defined.

(** X13.  In every environment the three service constructors are called
    with pairwise different keywords: the splatted [url] and [base_url] never
    repeat a keyword that is written out, so none of the calls can fail for a
    keyword given twice. *)
Theorem constructor_keywords_distinct (environ : gmap string string) :
  NoDup (keywords (make_stt environ)) /\
  NoDup (keywords (make_tts environ)) /\
  NoDup (keywords (make_llm environ)).
Proof.
  unfold keywords, make_stt, make_tts, make_llm, splat; simpl.
  split_and!.
  - destruct (truthy _); simpl; by apply (bool_decide_unpack _).
  - destruct (truthy _); simpl; by apply (bool_decide_unpack _).
  - by apply (bool_decide_unpack _).
Qed.
